(** * ATen/SavedTensorHooks.cpp: the per-thread stack of saved-tensor default hooks

    A shallow embedding of [at::SavedTensorDefaultHooks] and the properties
    of its push / pop / lookup / disable / tracing state machine.

    Conventions of the embedding:
    - a [PyObject*] is an address ([N]); [nullptr] is address 0;
    - [std::vector] is a [list] whose tail is the back of the vector;
    - the translation unit's two variables (the [thread_local tls] and the
      process-wide [is_initialized]) form the [state] threaded through every
      function;
    - a C++ function is a computation [M A]: from a state it returns normally,
      throws (the state keeps every write made before the throw), stops on a
      failed [assert], or has undefined behaviour;
    - [assert] is the checking macro of <cassert> (NDEBUG not defined). *)

From Stdlib Require Import String List NArith Bool Lia.
From ExtLib Require Import Structures.Monad.
Import ListNotations.
Import MonadNotation.
Local Open Scope monad_scope.

(** ** Handles *)

Definition PyObject_ptr : Type := N.
Definition nullptr : PyObject_ptr := 0%N.

(** [std::pair<PyObject*, PyObject*>]: (pack_hook, unpack_hook). *)
Definition hook_pair : Type := (PyObject_ptr * PyObject_ptr)%type.

(** What [get_hooks] answers when no hook is active. *)
Definition no_hooks : hook_pair := (nullptr, nullptr).

(** ** std::vector and std::optional, as far as the file uses them *)

Module vector.
Definition empty {A} (v : list A) : bool :=
  match v with [] => true | _ :: _ => false end.

(** [v.back()]: the last element; [None] stands for the call on an empty
    vector, which the standard leaves undefined. *)
Fixpoint back {A} (v : list A) : option A :=
  match v with
  | [] => None
  | [x] => Some x
  | _ :: v' => back v'
  end.

Definition emplace_back {A} (v : list A) (x : A) : list A := v ++ [x].

(** [v.pop_back()], likewise undefined on an empty vector. *)
Definition pop_back {A} (v : list A) : option (list A) :=
  match v with
  | [] => None
  | _ => Some (removelast v)
  end.
End vector.

Module optional.
Definition has_value {A} (o : option A) : bool :=
  match o with Some _ => true | None => false end.
End optional.

(** ** State *)

Module impl.
(** Modelled from the spec: the declaration of the struct is in
    c10/core/impl/SavedVariableHookTLS.h, which is not among the sources.
    Its fields are the three the functions access, with the types of the
    spec's data model: the stack of handler pairs, the optional reason for
    which the hooks are disabled, and the tracing flag (default false). *)
Record SavedTensorDefaultHooksTLS : Type := mkTLS {
  stack : list hook_pair;
  disabled_error_message : option string;
  is_tracing : bool
}.

Definition set_stack (v : list hook_pair) (t : SavedTensorDefaultHooksTLS) :=
  mkTLS v (disabled_error_message t) (is_tracing t).
Definition set_disabled_error_message (m : option string)
    (t : SavedTensorDefaultHooksTLS) :=
  mkTLS (stack t) m (is_tracing t).
Definition set_is_tracing (b : bool) (t : SavedTensorDefaultHooksTLS) :=
  mkTLS (stack t) (disabled_error_message t) b.
End impl.
Import impl.

(** The variables of the anonymous namespace: [thread_local ... tls] of the
    running thread and [static bool is_initialized(false)]. *)
Record state : Type := mkState {
  tls : SavedTensorDefaultHooksTLS;
  is_initialized : bool
}.

(** A thread that has not touched the hooks, in a fresh process. *)
Definition initial_state : state := mkState (mkTLS [] None false) false.

(** ** Computations *)

Inductive exn : Type :=
| c10_Error (msg : string)      (* thrown by TORCH_CHECK; [msg] is its text *)
| bad_optional_access.          (* thrown by optional::value() on nullopt *)

Inductive outcome (A : Type) : Type :=
| Ok (a : A) (s : state)        (* normal return *)
| Throw (e : exn) (s : state)   (* an exception leaves the function *)
| Abort                         (* a failed assert ends the process *)
| Undefined.                    (* undefined behaviour *)
Arguments Ok {A} a s.
Arguments Throw {A} e s.
Arguments Abort {A}.
Arguments Undefined {A}.

Definition M (A : Type) : Type := state -> outcome A.

#[global] Instance Monad_M : Monad M := {|
  ret := fun A (a : A) s => Ok a s;
  bind := fun A B (c : M A) (k : A -> M B) s =>
    match c s with
    | Ok a s' => k a s'
    | Throw e s' => Throw e s'
    | Abort => Abort
    | Undefined => Undefined
    end
|}.

Definition read {A} (f : state -> A) : M A := fun s => Ok (f s) s.
Definition write_tls (t : SavedTensorDefaultHooksTLS) : M unit :=
  fun s => Ok tt (mkState t (is_initialized s)).
Definition write_is_initialized (b : bool) : M unit :=
  fun s => Ok tt (mkState (tls s) b).
Definition throw {A} (e : exn) : M A := fun s => Throw e s.
Definition defined {A} (o : option A) : M A :=
  fun s => match o with Some a => Ok a s | None => Undefined end.

(** [assert(e)] of <cassert>. *)
Definition assert (e : bool) : M unit :=
  fun s => if e then Ok tt s else Abort.

(** [o.value()]. *)
Definition value {A} (o : option A) : M A :=
  match o with
  | Some a => ret a
  | None => throw bad_optional_access
  end.

(** Modelled from the spec: TORCH_CHECK is a macro of c10/util/Exception.h,
    which is not among the sources. When the condition is false the operation
    fails, surfacing the message as the failure description; the message
    expression is evaluated only then. *)
Definition TORCH_CHECK (cond : bool) (msg : M string) : M unit :=
  if cond then ret tt else (m <- msg ;; throw (c10_Error m)).

(** The text a caller sees when it catches the exception. *)
Definition what (e : exn) : string :=
  match e with
  | c10_Error msg => msg
  | bad_optional_access => "bad optional access"
  end.

(** ** The functions of SavedTensorHooks.cpp *)

Module SavedTensorDefaultHooks.

Definition is_enabled : M bool :=
  t <- read tls ;;
  ret (negb (optional.has_value (disabled_error_message t))).

Definition assertSavedTensorHooksNotDisabled : M unit :=
  enabled <- is_enabled ;;
  TORCH_CHECK enabled
    (t <- read tls ;; value (disabled_error_message t)).

Definition disable (message : string) : M unit :=
  t <- read tls ;;
  write_tls (set_disabled_error_message (Some message) t) ;;
  t <- read tls ;;
  if negb (vector.empty (stack t))
  then assertSavedTensorHooksNotDisabled
  else ret tt.

Definition enable : M unit :=
  t <- read tls ;;
  write_tls (set_disabled_error_message None t).

Definition set_tracing (is_tracing : bool) : M bool :=
  t <- read tls ;;
  let prior := impl.is_tracing t in
  write_tls (set_is_tracing is_tracing t) ;;
  ret prior.

Definition get_disabled_error_message : M (option string) :=
  t <- read tls ;;
  ret (disabled_error_message t).

Definition get_tls_state : M SavedTensorDefaultHooksTLS :=
  read tls.

Definition set_tls_state (state : SavedTensorDefaultHooksTLS) : M unit :=
  write_tls state.

Definition lazy_initialize : M unit :=
  write_is_initialized true.

Definition push_hooks (pack_hook unpack_hook : PyObject_ptr) : M unit :=
  init <- read is_initialized ;;
  assert init ;;
  assert (negb (pack_hook =? nullptr)%N && negb (unpack_hook =? nullptr)%N) ;;
  assertSavedTensorHooksNotDisabled ;;
  t <- read tls ;;
  write_tls (set_stack (vector.emplace_back (stack t) (pack_hook, unpack_hook)) t).

Definition pop_hooks : M hook_pair :=
  init <- read is_initialized ;;
  t <- read tls ;;
  assert (init && negb (vector.empty (stack t))) ;;
  hooks <- defined (vector.back (stack t)) ;;
  v <- defined (vector.pop_back (stack t)) ;;
  write_tls (set_stack v t) ;;
  ret hooks.

Definition get_hooks : M hook_pair :=
  init <- read is_initialized ;;
  t <- read tls ;;
  if negb init || vector.empty (stack t) || is_tracing t
  then ret (nullptr, nullptr)
  else defined (vector.back (stack t)).

End SavedTensorDefaultHooks.
Import SavedTensorDefaultHooks.


(** ** Sequences of scope operations (push on entry, pop on exit) *)

Inductive scope_op : Type :=
| Push (pack_hook unpack_hook : PyObject_ptr)
| Pop.

Definition exec (o : scope_op) : M unit :=
  match o with
  | Push pack_hook unpack_hook => push_hooks pack_hook unpack_hook
  | Pop => _ <- pop_hooks ;; ret tt
  end.

Fixpoint run (ops : list scope_op) : M unit :=
  match ops with
  | [] => ret tt
  | o :: ops' => exec o ;; run ops'
  end.

(** Both handles of a push are real handles. *)
Definition valid_op (o : scope_op) : Prop :=
  match o with
  | Push pack_hook unpack_hook => pack_hook <> nullptr /\ unpack_hook <> nullptr
  | Pop => True
  end.

(** The pairs pushed and not yet popped after [ops], the most recent first,
    starting from the pairs [pending]; [None] when some pop has no push to
    match (the sequence does not stay balanced). A sequence is fully balanced
    when it leaves [Some []]. *)
Fixpoint open_scopes (ops : list scope_op) (pending : list hook_pair)
    : option (list hook_pair) :=
  match ops with
  | [] => Some pending
  | Push pack_hook unpack_hook :: ops' =>
      open_scopes ops' ((pack_hook, unpack_hook) :: pending)
  | Pop :: ops' =>
      match pending with
      | [] => None
      | _ :: pending' => open_scopes ops' pending'
      end
  end.

(** [needle] occurs in [text]. *)
Definition contains (needle text : string) : Prop :=
  exists before after : string, text = (before ++ needle ++ after)%string.

(** ** Calls of the interface, as a caller issues them *)

Inductive api : Type :=
| IsEnabled
| Disable (message : string)
| Enable
| SetTracing (is_tracing : bool)
| GetDisabledErrorMessage
| GetTlsState
| SetTlsState (state : SavedTensorDefaultHooksTLS)
| LazyInitialize
| PushHooks (pack_hook unpack_hook : PyObject_ptr)
| PopHooks
| GetHooks.

Inductive retval : Type :=
| RVoid
| RBool (b : bool)
| RMessage (o : option string)
| RState (t : SavedTensorDefaultHooksTLS)
| RHooks (h : hook_pair).

Definition call (c : api) : M retval :=
  match c with
  | IsEnabled => b <- is_enabled ;; ret (RBool b)
  | Disable message => disable message ;; ret RVoid
  | Enable => enable ;; ret RVoid
  | SetTracing is_tracing => b <- set_tracing is_tracing ;; ret (RBool b)
  | GetDisabledErrorMessage => o <- get_disabled_error_message ;; ret (RMessage o)
  | GetTlsState => t <- get_tls_state ;; ret (RState t)
  | SetTlsState state => set_tls_state state ;; ret RVoid
  | LazyInitialize => lazy_initialize ;; ret RVoid
  | PushHooks pack_hook unpack_hook => push_hooks pack_hook unpack_hook ;; ret RVoid
  | PopHooks => h <- pop_hooks ;; ret (RHooks h)
  | GetHooks => h <- get_hooks ;; ret (RHooks h)
  end.

(** The state a caller goes on from after a call: the one left by a normal
    return or by the exception it catches; there is none after a failed
    assertion. *)
Definition after (c : api) (s : state) : option state :=
  match call c s with
  | Ok _ s' => Some s'
  | Throw _ s' => Some s'
  | Abort => None
  | Undefined => None
  end.

Fixpoint reach (cs : list api) (s : state) : option state :=
  match cs with
  | [] => Some s
  | c :: cs' =>
      match after c s with
      | Some s' => reach cs' s'
      | None => None
      end
  end.

Definition is_lazy_initialize (c : api) : bool :=
  match c with LazyInitialize => true | _ => false end.

(** Neither [enable] nor [set_tls_state]. *)
Definition keeps_disabled (c : api) : bool :=
  match c with Enable => false | SetTlsState _ => false | _ => true end.

(** Both handles of the pair are non-null. *)
Definition real_hooks (h : hook_pair) : Prop :=
  fst h <> nullptr /\ snd h <> nullptr.

(** A call that does not bring in a pair with a null handle from outside:
    only [set_tls_state] can, with the stack of its argument. *)
Definition real_snapshot (c : api) : Prop :=
  match c with
  | SetTlsState state => Forall real_hooks (stack state)
  | _ => True
  end.

(** Entering the scopes of [hs] one inside the other, and leaving [n] scopes,
    innermost first, collecting what each [pop_hooks] returns. *)
Fixpoint push_all (hs : list hook_pair) : M unit :=
  match hs with
  | [] => ret tt
  | h :: hs' => push_hooks (fst h) (snd h) ;; push_all hs'
  end.

Fixpoint pop_n (n : nat) : M (list hook_pair) :=
  match n with
  | O => ret []
  | S n' => h <- pop_hooks ;; hs <- pop_n n' ;; ret (h :: hs)
  end.

(** * Properties *)

Example push_lookup_pop :
  (lazy_initialize ;; push_hooks 1%N 2%N ;; push_hooks 3%N 4%N ;;
   a <- get_hooks ;; b <- pop_hooks ;; c <- get_hooks ;; ret (a, b, c))
    initial_state
  = Ok ((3, 4), (3, 4), (1, 2))%N (mkState (mkTLS [(1, 2)%N] None false) true).
Proof. reflexivity. Qed.

(** ** The vector operations *)

Lemma back_emplace_back {A} (v : list A) (x : A) :
  vector.back (vector.emplace_back v x) = Some x.
Proof.
  unfold vector.emplace_back.
  induction v as [|y v IH]; [reflexivity|].
  cbn [app vector.back]. rewrite IH.
  destruct v; reflexivity.
Qed.

Lemma pop_back_emplace_back {A} (v : list A) (x : A) :
  vector.pop_back (vector.emplace_back v x) = Some v.
Proof.
  unfold vector.emplace_back, vector.pop_back.
  rewrite removelast_last. destruct v; reflexivity.
Qed.

Lemma empty_emplace_back {A} (v : list A) (x : A) :
  vector.empty (vector.emplace_back v x) = false.
Proof. destruct v; reflexivity. Qed.

Lemma empty_true_iff {A} (v : list A) : vector.empty v = true <-> v = [].
Proof. destruct v; split; intros H; try reflexivity; discriminate. Qed.

Lemma nonempty_emplace_back {A} (v : list A) :
  v <> [] -> exists v' x, v = vector.emplace_back v' x.
Proof.
  intros H. destruct (exists_last H) as (v' & x & ->). now exists v', x.
Qed.

Lemma contains_refl (x : string) : contains x x.
Proof.
  exists EmptyString, EmptyString. cbn.
  induction x as [|c x IH]; cbn; [reflexivity | now rewrite <- IH].
Qed.

Lemma state_eta (s : state) :
  mkState (mkTLS (stack (tls s)) (disabled_error_message (tls s))
                 (is_tracing (tls s)))
          (is_initialized s) = s.
Proof. destruct s as [[? ? ?] ?]; reflexivity. Qed.

(** Unfolds a call down to the state it is run from. *)
Ltac step :=
  cbv [is_enabled assertSavedTensorHooksNotDisabled disable enable set_tracing
       get_disabled_error_message get_tls_state set_tls_state lazy_initialize
       push_hooks pop_hooks get_hooks TORCH_CHECK value throw assert defined
       read write_tls write_is_initialized Monad_M bind ret
       set_stack set_disabled_error_message set_is_tracing
       optional.has_value];
  cbn [tls is_initialized stack disabled_error_message is_tracing
       negb andb orb].

(** ** get_hooks *)

Lemma get_hooks_top (s : state) (v : list hook_pair) (h : hook_pair) :
  is_initialized s = true ->
  is_tracing (tls s) = false ->
  stack (tls s) = vector.emplace_back v h ->
  get_hooks s = Ok h s.
Proof.
  intros Hi Ht Hs. step. rewrite Hi, Ht, Hs.
  rewrite empty_emplace_back, back_emplace_back. reflexivity.
Qed.

Lemma get_hooks_none (s : state) :
  is_initialized s = false \/ stack (tls s) = [] \/ is_tracing (tls s) = true ->
  get_hooks s = Ok no_hooks s.
Proof.
  intros [H | [H | H]]; step; rewrite H; cbn.
  - reflexivity.
  - now rewrite orb_true_r.
  - now rewrite orb_true_r.
Qed.

Lemma get_hooks_returns (s : state) : exists r, get_hooks s = Ok r s.
Proof.
  destruct (is_initialized s) eqn:Hi;
    [|eexists; apply get_hooks_none; now left].
  destruct (is_tracing (tls s)) eqn:Ht;
    [eexists; apply get_hooks_none; now (right; right)|].
  destruct (stack (tls s)) as [|x v] eqn:Hs;
    [eexists; apply get_hooks_none; now (right; left)|].
  destruct (@exists_last _ (x :: v)) as (v' & h & E); [discriminate|].
  exists h. apply (get_hooks_top s v' h); auto. now rewrite Hs.
Qed.

(** C8. [get_hooks] never fails and never writes: from every state it
    returns normally, in the state it was called from. The answer is
    "no hooks" when the readiness flag is unset, when the stack is empty, or
    when tracing is on; otherwise it is the pair at the back of the stack. *)
Theorem get_hooks_never_fails_frame (s : state) :
  (exists r, get_hooks s = Ok r s) /\
  (is_initialized s = false \/ stack (tls s) = [] \/ is_tracing (tls s) = true ->
   get_hooks s = Ok no_hooks s) /\
  (forall v h,
     is_initialized s = true ->
     is_tracing (tls s) = false ->
     stack (tls s) = v ++ [h] ->
     get_hooks s = Ok h s).
Proof.
  split; [apply get_hooks_returns|].
  split; [apply get_hooks_none|].
  intros v h. apply get_hooks_top.
Qed.

Lemma get_hooks_never_fails_frame_witness :
  get_hooks initial_state = Ok no_hooks initial_state /\
  get_hooks (mkState (mkTLS [(1, 2); (3, 4)]%N (Some "off"%string) false) true)
  = Ok (3, 4)%N
       (mkState (mkTLS [(1, 2); (3, 4)]%N (Some "off"%string) false) true).
Proof.
  split.
  - apply (proj1 (proj2 (get_hooks_never_fails_frame initial_state))).
    left. reflexivity.
  - apply (proj2 (proj2 (get_hooks_never_fails_frame _)) [(1, 2)%N] (3, 4)%N);
      reflexivity.
Defined.

Lemma pop_hooks_empty (s : state) :
  stack (tls s) = [] -> pop_hooks s = Abort.
Proof. intros Hs. step. rewrite Hs. cbn. now rewrite andb_false_r. Qed.

Lemma pop_hooks_back (s : state) (v : list hook_pair) (h : hook_pair) :
  is_initialized s = true ->
  stack (tls s) = vector.emplace_back v h ->
  pop_hooks s
  = Ok h (mkState (mkTLS v (disabled_error_message (tls s))
                         (is_tracing (tls s)))
                  true).
Proof.
  intros Hi Hs. destruct s as [[st d tr] init]; cbn in Hi, Hs; subst.
  step. rewrite empty_emplace_back, back_emplace_back, pop_back_emplace_back.
  reflexivity.
Qed.

(** The guards in front of [back] and [pop_back] keep both functions away
    from the undefined calls on an empty vector. *)
Lemma back_guarded (s : state) :
  pop_hooks s <> Undefined /\ get_hooks s <> Undefined.
Proof.
  split.
  - destruct (stack (tls s)) as [|x v] eqn:Hs.
    + rewrite pop_hooks_empty by assumption. discriminate.
    + destruct (@exists_last _ (x :: v)) as (v' & h & E); [discriminate|].
      destruct (is_initialized s) eqn:Hi.
      * rewrite (pop_hooks_back s v' h) by (auto; now rewrite Hs).
        discriminate.
      * step. rewrite Hi. discriminate.
  - destruct (get_hooks_returns s) as [r ->]. discriminate.
Qed.

(** C9. [pop_hooks] on an empty stack is a failed assertion, whatever the
    disabled reason, the tracing flag and the readiness flag are; on a
    non-empty stack, with the readiness flag set, it removes the pair at the
    back of the stack and returns it, leaving the rest of the state as it was. *)
Theorem pop_hooks_contract (s : state) :
  (stack (tls s) = [] -> pop_hooks s = Abort) /\
  (forall v h,
     is_initialized s = true ->
     stack (tls s) = v ++ [h] ->
     pop_hooks s
     = Ok h (mkState (mkTLS v (disabled_error_message (tls s))
                            (is_tracing (tls s)))
                     true)).
Proof.
  split.
  - apply pop_hooks_empty.
  - intros v h. apply pop_hooks_back.
Qed.

Lemma pop_hooks_contract_witness :
  pop_hooks (mkState (mkTLS [] (Some "off"%string) true) true) = Abort /\
  pop_hooks (mkState (mkTLS [(1, 2); (3, 4)]%N None false) true)
  = Ok (3, 4)%N (mkState (mkTLS [(1, 2)%N] None false) true).
Proof.
  split.
  - apply (proj1 (pop_hooks_contract _)). reflexivity.
  - apply (proj2 (pop_hooks_contract
                    (mkState (mkTLS [(1, 2); (3, 4)]%N None false) true))
             [(1, 2)%N] (3, 4)%N); reflexivity.
Defined.

(** C7. [set_tracing v] returns normally from every state; it returns the
    value the tracing flag had, leaves the flag at [v] and every other field
    as it was; calling it again with the value it returned gives back the
    state it started from. *)
Theorem set_tracing_swaps (s : state) (v : bool) :
  exists s',
    set_tracing v s = Ok (is_tracing (tls s)) s' /\
    is_tracing (tls s') = v /\
    stack (tls s') = stack (tls s) /\
    disabled_error_message (tls s') = disabled_error_message (tls s) /\
    is_initialized s' = is_initialized s /\
    set_tracing (is_tracing (tls s)) s' = Ok v s.
Proof.
  eexists. split; [step; reflexivity|]. step.
  repeat split. now rewrite state_eta.
Qed.

(** C10. The answer of [get_hooks] does not depend on the disabled reason:
    two states that differ at most there get the same answer. So a [disable]
    that failed because the stack was not empty leaves a disabled state in
    which [get_hooks] still returns the pair at the back of the stack. *)
Theorem get_hooks_ignores_disabled_reason (s : state) :
  (forall m : option string,
     exists r,
       get_hooks s = Ok r s /\
       get_hooks (mkState (set_disabled_error_message m (tls s))
                          (is_initialized s))
       = Ok r (mkState (set_disabled_error_message m (tls s))
                       (is_initialized s))) /\
  (forall (m : string) v h,
     is_initialized s = true ->
     is_tracing (tls s) = false ->
     stack (tls s) = v ++ [h] ->
     exists s',
       disable m s = Throw (c10_Error m) s' /\
       disabled_error_message (tls s') = Some m /\
       get_hooks s' = Ok h s').
Proof.
  split.
  - intros m. destruct (get_hooks_returns s) as [r Hr].
    exists r. split; [exact Hr|].
    revert Hr. step. clear.
    destruct (negb (is_initialized s) || vector.empty (stack (tls s))
              || is_tracing (tls s)).
    + intros [= <-]. reflexivity.
    + destruct (vector.back (stack (tls s))); [|discriminate].
      intros [= <-]. reflexivity.
  - intros m v h Hi Ht Hs. eexists. split; [|split].
    + step. rewrite Hs.
      change (v ++ [h]) with (vector.emplace_back v h).
      rewrite empty_emplace_back. reflexivity.
    + reflexivity.
    + apply (get_hooks_top _ v h); cbn; auto.
Qed.

Lemma get_hooks_ignores_disabled_reason_witness :
  exists s',
    disable "x" (mkState (mkTLS [(1, 2)%N] None false) true)
    = Throw (c10_Error "x") s' /\
    disabled_error_message (tls s') = Some "x"%string /\
    get_hooks s' = Ok (1, 2)%N s'.
Proof.
  apply (proj2 (get_hooks_ignores_disabled_reason
                  (mkState (mkTLS [(1, 2)%N] None false) true))
           "x"%string [] (1, 2)%N); reflexivity.
Defined.

(** ** disable and push_hooks against the disabled reason *)

Lemma push_hooks_ok (s : state) (pack_hook unpack_hook : PyObject_ptr) :
  is_initialized s = true ->
  disabled_error_message (tls s) = None ->
  pack_hook <> nullptr ->
  unpack_hook <> nullptr ->
  push_hooks pack_hook unpack_hook s
  = Ok tt (mkState (mkTLS (stack (tls s) ++ [(pack_hook, unpack_hook)]) None
                          (is_tracing (tls s)))
                   true).
Proof.
  intros Hi Hd Hp Hu. destruct s as [[st d tr] init]; cbn in Hi, Hd; subst.
  apply N.eqb_neq in Hp, Hu. step. rewrite Hp, Hu. reflexivity.
Qed.

Lemma push_hooks_unready (s : state) (pack_hook unpack_hook : PyObject_ptr) :
  is_initialized s = false -> push_hooks pack_hook unpack_hook s = Abort.
Proof. intros Hi. step. rewrite Hi. reflexivity. Qed.

(** C2. With a non-empty stack, [disable m] throws the error whose text is
    [m], and the state it leaves is disabled with reason [m]: [is_enabled]
    answers false and [get_disabled_error_message] answers [m]. With an empty
    stack, [disable m] returns normally (and the state is disabled with
    reason [m] as well). *)
Theorem disable_refused_while_scope_open (s : state) (m : string) :
  let s' := mkState (set_disabled_error_message (Some m) (tls s))
                    (is_initialized s) in
  (stack (tls s) <> [] ->
   disable m s = Throw (c10_Error m) s' /\
   what (c10_Error m) = m /\
   is_enabled s' = Ok false s' /\
   get_disabled_error_message s' = Ok (Some m) s') /\
  (stack (tls s) = [] -> disable m s = Ok tt s').
Proof.
  cbv zeta. split.
  - intros Hne. destruct (nonempty_emplace_back _ Hne) as (v & h & Hs).
    repeat split. step. rewrite Hs, empty_emplace_back. reflexivity.
  - intros Hs. step. rewrite Hs. reflexivity.
Qed.

Lemma disable_refused_while_scope_open_witness :
  (disable "x" (mkState (mkTLS [(1, 2)%N] None false) true)
   = Throw (c10_Error "x") (mkState (mkTLS [(1, 2)%N] (Some "x"%string) false) true) /\
   is_enabled (mkState (mkTLS [(1, 2)%N] (Some "x"%string) false) true)
   = Ok false (mkState (mkTLS [(1, 2)%N] (Some "x"%string) false) true)) /\
  disable "x" initial_state
  = Ok tt (mkState (mkTLS [] (Some "x"%string) false) false).
Proof.
  split; [split|].
  - apply (proj1 (disable_refused_while_scope_open
                    (mkState (mkTLS [(1, 2)%N] None false) true) "x")).
    discriminate.
  - apply (proj1 (disable_refused_while_scope_open
                    (mkState (mkTLS [(1, 2)%N] None false) true) "x")).
    discriminate.
  - apply (proj2 (disable_refused_while_scope_open initial_state "x")).
    reflexivity.
Defined.

(** C3, as the claim states it, fails where the readiness flag is unset. In
    a fresh process, [disable "x"] returns (the stack is empty) and leaves the
    state disabled with reason "x"; [push_hooks] then stops on its first
    assertion, before it looks at the disabled reason: no error carrying the
    reason is thrown. *)
Lemma push_hooks_disabled_unready_counterexample :
  let s := mkState (mkTLS [] (Some "x"%string) false) false in
  disable "x" initial_state = Ok tt s /\
  disabled_error_message (tls s) = Some "x"%string /\
  push_hooks 1%N 2%N s = Abort /\
  ~ (exists e s', push_hooks 1%N 2%N s = Throw e s' /\ contains "x" (what e)).
Proof.
  cbv zeta. repeat (split; [reflexivity|]).
  intros (e & s' & H & _). discriminate H.
Qed.

(** C3, amended. In every state whose readiness flag is set and whose
    disabled reason is some [x], [push_hooks] of two non-null handles throws
    the error whose text is [x] (so its text contains [x]), and the state
    after the throw is the state before the call: the stack, and every other
    field, is unchanged. *)
Theorem push_hooks_refused_while_disabled
    (s : state) (x : string) (pack_hook unpack_hook : PyObject_ptr) :
  is_initialized s = true ->
  pack_hook <> nullptr ->
  unpack_hook <> nullptr ->
  disabled_error_message (tls s) = Some x ->
  push_hooks pack_hook unpack_hook s = Throw (c10_Error x) s /\
  contains x (what (c10_Error x)).
Proof.
  intros Hi Hp Hu Hd. split; [|apply contains_refl].
  destruct s as [[st d tr] init]; cbn in Hi, Hd; subst.
  apply N.eqb_neq in Hp, Hu. step. rewrite Hp, Hu. reflexivity.
Qed.

Lemma push_hooks_refused_while_disabled_witness :
  push_hooks 3%N 4%N (mkState (mkTLS [] (Some "x"%string) false) true)
  = Throw (c10_Error "x") (mkState (mkTLS [] (Some "x"%string) false) true) /\
  contains "x" (what (c10_Error "x")).
Proof.
  apply (push_hooks_refused_while_disabled
           (mkState (mkTLS [] (Some "x"%string) false) true) "x" 3%N 4%N);
    [reflexivity | discriminate | discriminate | reflexivity].
Defined.

(** ** The readiness flag *)

(** C5, as the claim states it, fails on a fresh process: [push_hooks] does
    not set the readiness flag, it asserts it; a caller that has not run
    [lazy_initialize] gets no push and no flag. *)
Lemma push_hooks_sets_flag_counterexample :
  is_initialized initial_state = false /\
  push_hooks 1%N 2%N initial_state = Abort /\
  ~ (exists s', push_hooks 1%N 2%N initial_state = Ok tt s' /\
                is_initialized s' = true).
Proof.
  split; [reflexivity|]. split; [reflexivity|].
  intros (s' & H & _). discriminate H.
Qed.

(** C5, amended. [push_hooks] never writes the readiness flag and requires
    it: with the flag unset it stops on its assertion, and whenever it
    returns, the flag was set before and is set after. The flag is set by
    [lazy_initialize], which always returns, changes nothing else and is
    idempotent; run before [push_hooks] on an enabled state with two non-null
    handles, the push returns with the flag set and the pair at the back of
    the stack. *)
Theorem push_hooks_requires_lazy_initialize
    (s : state) (pack_hook unpack_hook : PyObject_ptr) :
  (is_initialized s = false -> push_hooks pack_hook unpack_hook s = Abort) /\
  (forall s', push_hooks pack_hook unpack_hook s = Ok tt s' ->
              is_initialized s = true /\ is_initialized s' = true) /\
  lazy_initialize s = Ok tt (mkState (tls s) true) /\
  (lazy_initialize ;; lazy_initialize) s = lazy_initialize s /\
  (disabled_error_message (tls s) = None ->
   pack_hook <> nullptr ->
   unpack_hook <> nullptr ->
   exists s',
     (lazy_initialize ;; push_hooks pack_hook unpack_hook) s = Ok tt s' /\
     is_initialized s' = true /\
     stack (tls s') = stack (tls s) ++ [(pack_hook, unpack_hook)]).
Proof.
  split; [apply push_hooks_unready|].
  split; [|split; [reflexivity|split; [reflexivity|]]].
  - intros s'. destruct s as [[st d tr] [|]].
    + step.
      destruct (negb (pack_hook =? nullptr)%N && negb (unpack_hook =? nullptr)%N);
        [|discriminate].
      destruct d; [discriminate|]. intros [= <-]. split; reflexivity.
    + rewrite push_hooks_unready by reflexivity. discriminate.
  - intros Hd Hp Hu. eexists. split; [|split].
    + change ((lazy_initialize ;; push_hooks pack_hook unpack_hook) s)
        with (push_hooks pack_hook unpack_hook (mkState (tls s) true)).
      apply push_hooks_ok; auto.
    + reflexivity.
    + reflexivity.
Qed.

Lemma push_hooks_requires_lazy_initialize_witness :
  push_hooks 1%N 2%N initial_state = Abort /\
  exists s',
    (lazy_initialize ;; push_hooks 1%N 2%N) initial_state = Ok tt s' /\
    is_initialized s' = true /\
    stack (tls s') = [(1, 2)%N].
Proof.
  split.
  - apply (proj1 (push_hooks_requires_lazy_initialize initial_state 1%N 2%N)).
    reflexivity.
  - apply (proj2 (proj2 (proj2 (proj2
             (push_hooks_requires_lazy_initialize initial_state 1%N 2%N)))));
      [reflexivity | discriminate | discriminate].
Defined.

(** ** Tracing *)

(** C4. From every state, once [set_tracing true] and then a push of the
    pair [h] have been done, [get_hooks] answers "no hooks" although the
    stack is not empty; after [set_tracing false], with the stack as the push
    left it, [get_hooks] answers [h]. The push is done, that is it returns,
    from every state whose readiness flag is set, that is enabled, and for
    every pair of non-null handles. *)
Theorem tracing_hides_pushed_hooks
    (s : state) (pack_hook unpack_hook : PyObject_ptr) :
  exists s0,
    set_tracing true s = Ok (is_tracing (tls s)) s0 /\
    (is_initialized s = true ->
     disabled_error_message (tls s) = None ->
     pack_hook <> nullptr ->
     unpack_hook <> nullptr ->
     exists s1, push_hooks pack_hook unpack_hook s0 = Ok tt s1) /\
    (forall s1,
       push_hooks pack_hook unpack_hook s0 = Ok tt s1 ->
       stack (tls s1) <> [] /\
       get_hooks s1 = Ok no_hooks s1 /\
       exists s2,
         set_tracing false s1 = Ok true s2 /\
         stack (tls s2) = stack (tls s1) /\
         get_hooks s2 = Ok (pack_hook, unpack_hook) s2).
Proof.
  eexists. split; [step; reflexivity|]. split.
  - intros Hi Hd Hp Hu. eexists. apply push_hooks_ok; auto.
  - intros s1. destruct s as [[st d tr] [|]];
      [|rewrite push_hooks_unready by reflexivity; discriminate].
    step.
    destruct (negb (pack_hook =? nullptr)%N && negb (unpack_hook =? nullptr)%N);
      [|discriminate].
    destruct d; [discriminate|]. intros [= <-]. split; [|split].
    + cbn. unfold vector.emplace_back. now destruct st.
    + apply get_hooks_none. right; right. reflexivity.
    + eexists. split; [step; reflexivity|]. split; [reflexivity|].
      apply (get_hooks_top _ st); reflexivity.
Qed.

Lemma tracing_hides_pushed_hooks_witness :
  exists s1,
    (_ <- set_tracing true ;; push_hooks 3%N 4%N) initial_state = Abort /\
    (lazy_initialize ;; _ <- set_tracing true ;; push_hooks 3%N 4%N)
      initial_state = Ok tt s1 /\
    get_hooks s1 = Ok no_hooks s1 /\
    (_ <- set_tracing false ;; get_hooks) s1
    = Ok (3, 4)%N (mkState (mkTLS [(3, 4)%N] None false) true).
Proof.
  destruct (tracing_hides_pushed_hooks (mkState (mkTLS [] None false) true)
              3%N 4%N) as (s0 & E0 & Hex & Hpost).
  injection E0 as <-.
  destruct Hex as (s1 & E1);
    [reflexivity | reflexivity | discriminate | discriminate |].
  exists s1. destruct (Hpost s1 E1) as (_ & Hg & s2 & E2 & _ & Hg2).
  injection E1 as <-. injection E2 as <-.
  repeat split; assumption.
Defined.

(** ** Capture and restore *)

(** C6. [set_tls_state (get_tls_state ())] returns normally in the state it
    started from, so whatever runs next (a query or any other operation, or
    any sequence of them) has the outcome it would have had without the two
    calls. *)
Theorem restore_captured_state_is_noop (s : state) :
  (snapshot <- get_tls_state ;; set_tls_state snapshot) s = Ok tt s /\
  (forall (A : Type) (next : M A),
     (snapshot <- get_tls_state ;; set_tls_state snapshot ;; next) s = next s) /\
  (snapshot <- get_tls_state ;; set_tls_state snapshot ;; is_enabled) s
  = is_enabled s /\
  (snapshot <- get_tls_state ;; set_tls_state snapshot ;;
   get_disabled_error_message) s
  = get_disabled_error_message s /\
  (snapshot <- get_tls_state ;; set_tls_state snapshot ;; get_hooks) s
  = get_hooks s.
Proof.
  assert (E : forall (A : Type) (next : M A),
            (snapshot <- get_tls_state ;; set_tls_state snapshot ;; next) s
            = next s).
  { intros A next. destruct s as [t init]. reflexivity. }
  split; [destruct s; reflexivity|]. split; [exact E|].
  repeat split; apply E.
Qed.

(** ** Balanced sequences of pushes and pops *)

Lemma run_cons (o : scope_op) (ops : list scope_op) (s s' : state) :
  exec o s = Ok tt s' -> run (o :: ops) s = run ops s'.
Proof. intros E. cbn. now rewrite E. Qed.

Lemma run_cons_abort (o : scope_op) (ops : list scope_op) (s : state) :
  exec o s = Abort -> run (o :: ops) s = Abort.
Proof. intros E. cbn. now rewrite E. Qed.

Lemma open_scopes_app (pre post : list scope_op) (pending : list hook_pair) :
  open_scopes (pre ++ post) pending
  = match open_scopes pre pending with
    | Some pending' => open_scopes post pending'
    | None => None
    end.
Proof.
  revert pending. induction pre as [|[p u|] pre IH]; intros pending; cbn.
  - reflexivity.
  - apply IH.
  - destruct pending; [reflexivity | apply IH].
Qed.

(** What a sequence that stays balanced does to the state: it runs to its
    end, and the stack is then the stack before, followed by the pairs still
    open, oldest first; nothing else has changed. *)
Lemma run_open_scopes (ops : list scope_op) :
  forall (pending pending' base : list hook_pair) (tr : bool),
    Forall valid_op ops ->
    open_scopes ops pending = Some pending' ->
    run ops (mkState (mkTLS (base ++ rev pending) None tr) true)
    = Ok tt (mkState (mkTLS (base ++ rev pending') None tr) true).
Proof.
  induction ops as [|[p u|] ops IH]; intros pending pending' base tr Hv Ho.
  - injection Ho as <-. reflexivity.
  - inversion Hv as [|? ? Hpu Hv']; subst. destruct Hpu as [Hp Hu].
    rewrite (run_cons _ _ _
               (mkState (mkTLS (base ++ rev ((p, u) :: pending)) None tr) true)).
    + apply IH; assumption.
    + cbn [exec]. rewrite push_hooks_ok by (cbn; auto).
      cbn. now rewrite <- app_assoc.
  - inversion Hv as [|? ? _ Hv']; subst.
    destruct pending as [|h pending]; [discriminate|].
    rewrite (run_cons _ _ _
               (mkState (mkTLS (base ++ rev pending) None tr) true)).
    + apply IH; assumption.
    + cbn [exec].
      change (_ <- pop_hooks ;; ret tt)
        with (fun s => match pop_hooks s with
                       | Ok _ s' => @Ok unit tt s'
                       | Throw e s' => Throw e s'
                       | Abort => Abort
                       | Undefined => Undefined
                       end).
      cbv beta.
      rewrite (pop_hooks_back _ (base ++ rev pending) h);
        cbn; [reflexivity | reflexivity | apply app_assoc].
Qed.

Lemma open_scopes_prefix (pre post : list scope_op) :
  open_scopes (pre ++ post) [] <> None ->
  exists pending, open_scopes pre [] = Some pending.
Proof.
  rewrite open_scopes_app. destruct (open_scopes pre []) as [pending|].
  - intros _. now exists pending.
  - intros H. now contradiction H.
Qed.

Lemma push_hooks_null (s : state) (pack_hook unpack_hook : PyObject_ptr) :
  pack_hook = nullptr \/ unpack_hook = nullptr ->
  push_hooks pack_hook unpack_hook s = Abort.
Proof.
  intros H. destruct (is_initialized s) eqn:Hi;
    [|now apply push_hooks_unready].
  step. rewrite Hi.
  destruct H as [-> | ->]; cbn; [|rewrite andb_false_r]; reflexivity.
Qed.

(** A sequence that runs to its end has pushed non-null handles only. *)
Lemma run_ok_valid (ops : list scope_op) :
  forall (pending pending' base : list hook_pair) (tr : bool) (s' : state),
    open_scopes ops pending = Some pending' ->
    run ops (mkState (mkTLS (base ++ rev pending) None tr) true) = Ok tt s' ->
    Forall valid_op ops.
Proof.
  induction ops as [|[p u|] ops IH]; intros pending pending' base tr s' Ho Hr.
  - constructor.
  - destruct (N.eq_dec p nullptr) as [Hp|Hp];
      [rewrite run_cons_abort in Hr by (apply push_hooks_null; now left);
       discriminate|].
    destruct (N.eq_dec u nullptr) as [Hu|Hu];
      [rewrite run_cons_abort in Hr by (apply push_hooks_null; now right);
       discriminate|].
    constructor; [now split|].
    rewrite (run_cons _ _ _
               (mkState (mkTLS (base ++ rev ((p, u) :: pending)) None tr) true))
      in Hr.
    + exact (IH _ _ _ _ _ Ho Hr).
    + cbn [exec]. rewrite push_hooks_ok by (cbn; auto).
      cbn. now rewrite <- app_assoc.
  - destruct pending as [|h pending]; [discriminate|].
    constructor; [exact I|].
    rewrite (run_cons _ _ _
               (mkState (mkTLS (base ++ rev pending) None tr) true)) in Hr.
    + exact (IH _ _ _ _ _ Ho Hr).
    + cbn [exec].
      change (_ <- pop_hooks ;; ret tt)
        with (fun s => match pop_hooks s with
                       | Ok _ s' => @Ok unit tt s'
                       | Throw e s' => Throw e s'
                       | Abort => Abort
                       | Undefined => Undefined
                       end).
      cbv beta.
      rewrite (pop_hooks_back _ (base ++ rev pending) h);
        cbn; [reflexivity | reflexivity | apply app_assoc].
Qed.

Lemma run_balanced_prefix (s : state) (pre : list scope_op)
    (pending : list hook_pair) :
  is_initialized s = true ->
  disabled_error_message (tls s) = None ->
  is_tracing (tls s) = false ->
  open_scopes pre [] = Some pending ->
  (Forall valid_op pre ->
   run pre s
   = Ok tt (mkState (mkTLS (stack (tls s) ++ rev pending) None false) true)) /\
  (forall s',
     run pre s = Ok tt s' ->
     s' = mkState (mkTLS (stack (tls s) ++ rev pending) None false) true).
Proof.
  intros Hi Hd Ht Ho. destruct s as [[st d tr] init]; cbn in Hi, Hd, Ht; subst.
  cbn [tls stack].
  assert (E : st = st ++ rev []) by (cbn; now rewrite app_nil_r).
  assert (Hrun : Forall valid_op pre ->
            run pre (mkState (mkTLS st None false) true)
            = Ok tt (mkState (mkTLS (st ++ rev pending) None false) true)).
  { intros Hv. rewrite <- (run_open_scopes pre [] pending st false Hv Ho).
    now rewrite <- E. }
  split; [exact Hrun|].
  intros s' Hr. assert (Hv : Forall valid_op pre).
  { apply (run_ok_valid pre [] pending st false s' Ho). now rewrite <- E. }
  rewrite (Hrun Hv) in Hr. now injection Hr as <-.
Qed.

(** C1. Take an enabled, non-tracing state with the readiness flag set, and
    a sequence of pushes and pops in which every pop has an earlier push to
    match. Every prefix of the sequence runs to its end when its pushes are
    of non-null handles, and only then. After a prefix, [get_hooks] answers
    the most recently pushed pair that is not yet popped; in particular,
    right after each push it answers the pair just pushed. When no pair is
    left open, the state is the state before the sequence, so [get_hooks]
    answers "no hooks" if it did so before. *)
Theorem balanced_push_pop_lookup (s : state) (ops : list scope_op) :
  is_initialized s = true ->
  disabled_error_message (tls s) = None ->
  is_tracing (tls s) = false ->
  open_scopes ops [] <> None ->
  (forall pre post,
     ops = pre ++ post ->
     exists pending,
       open_scopes pre [] = Some pending /\
       (Forall valid_op pre -> exists s', run pre s = Ok tt s') /\
       (forall s',
          run pre s = Ok tt s' ->
          Forall valid_op pre /\
          match pending with
          | h :: _ => get_hooks s' = Ok h s'
          | [] => s' = s
          end)) /\
  (forall pre pack_hook unpack_hook post s',
     ops = pre ++ Push pack_hook unpack_hook :: post ->
     run (pre ++ [Push pack_hook unpack_hook]) s = Ok tt s' ->
     get_hooks s' = Ok (pack_hook, unpack_hook) s') /\
  (open_scopes ops [] = Some [] ->
   get_hooks s = Ok no_hooks s ->
   (Forall valid_op ops -> run ops s = Ok tt s) /\
   (forall s', run ops s = Ok tt s' -> get_hooks s' = Ok no_hooks s')).
Proof.
  intros Hi Hd Ht Hb.
  assert (Hnil : mkState (mkTLS (stack (tls s) ++ rev []) None false) true = s).
  { destruct s as [[st d tr] init]; cbn in Hi, Hd, Ht; subst.
    cbn. now rewrite app_nil_r. }
  assert (Htop : forall h pending,
            get_hooks (mkState (mkTLS (stack (tls s) ++ rev (h :: pending))
                                      None false) true)
            = Ok h (mkState (mkTLS (stack (tls s) ++ rev (h :: pending))
                                   None false) true)).
  { intros h pending.
    apply (get_hooks_top _ (stack (tls s) ++ rev pending)); cbn; auto.
    apply app_assoc. }
  split; [|split].
  - intros pre post E.
    destruct (open_scopes_prefix pre post) as [pending Ho];
      [now rewrite <- E|].
    destruct (run_balanced_prefix s pre pending Hi Hd Ht Ho) as [Hrun Hinv].
    exists pending. split; [exact Ho|]. split.
    + intros Hv. eexists. exact (Hrun Hv).
    + intros s' Hr. split.
      * destruct s as [[st d tr] init]; cbn in Hi, Hd, Ht; subst.
        apply (run_ok_valid pre [] pending st false s' Ho).
        cbn. now rewrite app_nil_r.
      * rewrite (Hinv s' Hr). destruct pending as [|h pending];
          [exact Hnil | apply Htop].
  - intros pre p u post s' E Hr.
    destruct (open_scopes_prefix pre (Push p u :: post)) as [pending Ho];
      [now rewrite <- E|].
    assert (Ho' : open_scopes (pre ++ [Push p u]) [] = Some ((p, u) :: pending))
      by (rewrite open_scopes_app, Ho; reflexivity).
    destruct (run_balanced_prefix s _ _ Hi Hd Ht Ho') as [_ Hinv].
    rewrite (Hinv s' Hr). apply Htop.
  - intros Ho Hg.
    destruct (run_balanced_prefix s ops [] Hi Hd Ht Ho) as [Hrun Hinv].
    rewrite Hnil in Hrun, Hinv. split; [exact Hrun|].
    intros s' Hr. now rewrite (Hinv s' Hr).
Qed.

Lemma balanced_push_pop_lookup_witness :
  let s := mkState (mkTLS [] None false) true in
  let ops := [Push 1 2; Push 3 4; Pop; Push 5 6; Pop; Pop]%N in
  (exists s', run [Push 1 2; Push 3 4]%N s = Ok tt s' /\
              get_hooks s' = Ok (3, 4)%N s') /\
  (exists s', run [Push 1 2; Push 3 4; Pop]%N s = Ok tt s' /\
              get_hooks s' = Ok (1, 2)%N s') /\
  run ops s = Ok tt s /\
  (forall s', run ops s = Ok tt s' -> get_hooks s' = Ok no_hooks s').
Proof.
  cbv zeta.
  destruct (balanced_push_pop_lookup
              (mkState (mkTLS [] None false) true)
              [Push 1 2; Push 3 4; Pop; Push 5 6; Pop; Pop]%N
              eq_refl eq_refl eq_refl)
    as (Hprefix & Hpush & Hend); [discriminate|].
  split; [|split].
  - eexists. split; [reflexivity|].
    apply (Hpush [Push 1 2]%N 3%N 4%N [Pop; Push 5 6; Pop; Pop]%N);
      reflexivity.
  - destruct (Hprefix [Push 1 2; Push 3 4; Pop]%N [Push 5 6; Pop; Pop]%N eq_refl)
      as (pending & Ho & Hex & Hpost).
    destruct Hex as [s' Hr]; [repeat constructor; discriminate|].
    exists s'. split; [exact Hr|].
    destruct (Hpost s' Hr) as [_ Hg].
    injection Ho as <-. exact Hg.
  - destruct Hend as [Hrun Hg]; [reflexivity | reflexivity |].
    split; [|exact Hg]. apply Hrun. repeat constructor; discriminate.
Defined.

(** * Further properties of the functions *)

(** ** The outcome of each function, in closed form *)

Lemma push_hooks_cases (s : state) (pack_hook unpack_hook : PyObject_ptr) :
  push_hooks pack_hook unpack_hook s
  = if negb (is_initialized s) || (pack_hook =? nullptr)%N
       || (unpack_hook =? nullptr)%N
    then Abort
    else match disabled_error_message (tls s) with
         | Some m => Throw (c10_Error m) s
         | None =>
             Ok tt (mkState (mkTLS (stack (tls s) ++ [(pack_hook, unpack_hook)])
                                   None (is_tracing (tls s)))
                            true)
         end.
Proof.
  destruct s as [[st d tr] [|]]; step;
    destruct (pack_hook =? nullptr)%N, (unpack_hook =? nullptr)%N, d;
    reflexivity.
Qed.

Lemma disable_cases (s : state) (m : string) :
  disable m s
  = if vector.empty (stack (tls s))
    then Ok tt (mkState (set_disabled_error_message (Some m) (tls s))
                        (is_initialized s))
    else Throw (c10_Error m)
               (mkState (set_disabled_error_message (Some m) (tls s))
                        (is_initialized s)).
Proof. step. destruct (vector.empty (stack (tls s))); reflexivity. Qed.

Lemma pop_hooks_cases (s : state) :
  (pop_hooks s = Abort /\ (is_initialized s = false \/ stack (tls s) = [])) \/
  (exists v h,
     is_initialized s = true /\
     stack (tls s) = v ++ [h] /\
     pop_hooks s
     = Ok h (mkState (mkTLS v (disabled_error_message (tls s))
                            (is_tracing (tls s)))
                     true)).
Proof.
  destruct (stack (tls s)) as [|x v] eqn:Hs.
  - left. split; [now apply pop_hooks_empty | now right].
  - destruct (@exists_last _ (x :: v)) as (v' & h & E); [discriminate|].
    destruct (is_initialized s) eqn:Hi.
    + right. exists v', h. split; [reflexivity|]. split; [exact E|].
      apply pop_hooks_back; [exact Hi | now rewrite Hs].
    + left. split; [|now left]. step. rewrite Hi. reflexivity.
Qed.

Lemma after_disable (s : state) (m : string) :
  after (Disable m) s
  = Some (mkState (set_disabled_error_message (Some m) (tls s))
                  (is_initialized s)).
Proof.
  unfold after, call.
  change ((disable m ;; ret RVoid) s)
    with (match disable m s with
          | Ok _ s' => Ok RVoid s'
          | Throw e s' => Throw e s'
          | Abort => Abort
          | Undefined => Undefined
          end).
  rewrite disable_cases. destruct (vector.empty (stack (tls s))); reflexivity.
Qed.

Lemma after_push_hooks (s : state) (pack_hook unpack_hook : PyObject_ptr) :
  after (PushHooks pack_hook unpack_hook) s
  = if negb (is_initialized s) || (pack_hook =? nullptr)%N
       || (unpack_hook =? nullptr)%N
    then None
    else match disabled_error_message (tls s) with
         | Some m => Some s
         | None =>
             Some (mkState (mkTLS (stack (tls s) ++ [(pack_hook, unpack_hook)])
                                  None (is_tracing (tls s)))
                           true)
         end.
Proof.
  unfold after, call.
  change ((push_hooks pack_hook unpack_hook ;; ret RVoid) s)
    with (match push_hooks pack_hook unpack_hook s with
          | Ok _ s' => Ok RVoid s'
          | Throw e s' => Throw e s'
          | Abort => Abort
          | Undefined => Undefined
          end).
  rewrite push_hooks_cases.
  destruct (negb (is_initialized s) || (pack_hook =? nullptr)%N
            || (unpack_hook =? nullptr)%N); [reflexivity|].
  destruct (disabled_error_message (tls s)); reflexivity.
Qed.

Lemma after_pop_hooks (s : state) :
  (after PopHooks s = None /\
   (is_initialized s = false \/ stack (tls s) = [])) \/
  (exists v h,
     is_initialized s = true /\
     stack (tls s) = v ++ [h] /\
     after PopHooks s
     = Some (mkState (mkTLS v (disabled_error_message (tls s))
                            (is_tracing (tls s)))
                     true)).
Proof.
  unfold after, call.
  change ((h <- pop_hooks ;; ret (RHooks h)) s)
    with (match pop_hooks s with
          | Ok h s' => Ok (RHooks h) s'
          | Throw e s' => Throw e s'
          | Abort => Abort
          | Undefined => Undefined
          end).
  destruct (pop_hooks_cases s) as [[E H] | (v & h & Hi & Hs & E)]; rewrite E.
  - left. now split.
  - right. exists v, h. now repeat split.
Qed.

Lemma after_get_hooks (s : state) : after GetHooks s = Some s.
Proof.
  unfold after, call.
  change ((h <- get_hooks ;; ret (RHooks h)) s)
    with (match get_hooks s with
          | Ok h s' => Ok (RHooks h) s'
          | Throw e s' => Throw e s'
          | Abort => Abort
          | Undefined => Undefined
          end).
  destruct (get_hooks_returns s) as [r ->]. reflexivity.
Qed.

Ltac open_call := unfold after, call; cbv [bind ret Monad_M].

Lemma reach_app (cs1 cs2 : list api) (s : state) :
  reach (cs1 ++ cs2) s
  = match reach cs1 s with
    | Some s' => reach cs2 s'
    | None => None
    end.
Proof.
  revert s. induction cs1 as [|c cs1 IH]; intros s; cbn; [reflexivity|].
  destruct (after c s); [apply IH | reflexivity].
Qed.

(** What a call leaves of the state when the caller can go on, for the calls
    that neither push nor pop. *)
Lemma after_other (c : api) (s : state) :
  match c with
  | PushHooks _ _ => True
  | PopHooks => True
  | Disable m =>
      after c s = Some (mkState (set_disabled_error_message (Some m) (tls s))
                                (is_initialized s))
  | Enable =>
      after c s = Some (mkState (set_disabled_error_message None (tls s))
                                (is_initialized s))
  | SetTracing b =>
      after c s = Some (mkState (set_is_tracing b (tls s)) (is_initialized s))
  | SetTlsState t => after c s = Some (mkState t (is_initialized s))
  | LazyInitialize => after c s = Some (mkState (tls s) true)
  | _ => after c s = Some s
  end.
Proof.
  destruct c; try exact I; try reflexivity.
  - apply after_disable.
  - apply after_get_hooks.
Qed.

(** ** enable and disable *)

(** X1. Disabling is not counted. After any number of [disable] calls,
    whether they returned or threw, one [enable] leaves the state that
    [enable] alone would have left; on a state that was enabled this is the
    state before the first [disable]. Without the [enable], the reason is the
    one of the last [disable] and nothing else has changed. *)
Theorem enable_undoes_disables (s : state) (ms : list string) :
  reach (map Disable ms ++ [Enable]) s = after Enable s /\
  (disabled_error_message (tls s) = None ->
   reach (map Disable ms ++ [Enable]) s = Some s) /\
  (forall m,
     reach (map Disable (ms ++ [m])) s
     = Some (mkState (set_disabled_error_message (Some m) (tls s))
                     (is_initialized s))).
Proof.
  assert (H1 : forall s0, reach (map Disable ms ++ [Enable]) s0
                          = after Enable s0).
  { induction ms as [|m ms IH]; intros s0; [reflexivity|].
    cbn [map app reach]. rewrite after_disable, IH. reflexivity. }
  split; [apply H1|]. split.
  - intros Hd. rewrite H1. destruct s as [[st d tr] init]; cbn in Hd; subst.
    reflexivity.
  - intros m. clear H1. revert s. induction ms as [|m' ms IH]; intros s.
    + cbn [map app reach]. now rewrite after_disable.
    + cbn [map app reach]. rewrite after_disable, IH. reflexivity.
Qed.

Lemma enable_undoes_disables_witness :
  reach [Disable "a"; Disable "b"; Enable]
        (mkState (mkTLS [(1, 2)%N] None true) true)
  = Some (mkState (mkTLS [(1, 2)%N] None true) true).
Proof.
  apply (proj1 (proj2 (enable_undoes_disables
                         (mkState (mkTLS [(1, 2)%N] None true) true)
                         ["a"; "b"]%string))).
  reflexivity.
Defined.

(** ** Exceptions and failed assertions *)

(** X2. The only exception a function of the interface throws is the
    [c10::Error] whose text is the disabled reason in force, and only
    [push_hooks] and [disable] throw it: [push_hooks] on a disabled state,
    which it leaves untouched, and [disable] on a non-empty stack, after it
    has stored its reason. [bad_optional_access] is never thrown, so
    [assertSavedTensorHooksNotDisabled] never takes the value of an empty
    optional. *)
Theorem call_throws_disabled_reason (c : api) (s s' : state) (e : exn) :
  call c s = Throw e s' ->
  exists m,
    e = c10_Error m /\
    disabled_error_message (tls s') = Some m /\
    (((exists pack_hook unpack_hook, c = PushHooks pack_hook unpack_hook) /\
      s' = s) \/
     (c = Disable m /\
      stack (tls s) <> [] /\
      s' = mkState (set_disabled_error_message (Some m) (tls s))
                   (is_initialized s))).
Proof.
  destruct c; open_call; try discriminate.
  - rewrite disable_cases. destruct (stack (tls s)) eqn:Hs; cbn [vector.empty];
      [discriminate|].
    intros [= <- <-]. exists message. split; [reflexivity|].
    split; [reflexivity|]. right. repeat split. discriminate.
  - rewrite push_hooks_cases.
    destruct (negb (is_initialized s) || (pack_hook =? nullptr)%N
              || (unpack_hook =? nullptr)%N); [discriminate|].
    destruct (disabled_error_message (tls s)) as [m|] eqn:Hd; [|discriminate].
    intros [= <- <-]. exists m. split; [reflexivity|]. split; [exact Hd|].
    left. split; [now exists pack_hook, unpack_hook | reflexivity].
  - destruct (pop_hooks_cases s) as [[E _] | (v & h & _ & _ & E)]; rewrite E;
      discriminate.
  - destruct (get_hooks_returns s) as [r ->]. discriminate.
Qed.

Lemma call_throws_disabled_reason_witness :
  exists m,
    c10_Error "off" = c10_Error m /\
    disabled_error_message
      (tls (mkState (mkTLS [] (Some "off"%string) false) true)) = Some m /\
    (((exists pack_hook unpack_hook,
         PushHooks 1%N 2%N = PushHooks pack_hook unpack_hook) /\
      mkState (mkTLS [] (Some "off"%string) false) true
      = mkState (mkTLS [] (Some "off"%string) false) true) \/
     (PushHooks 1%N 2%N = Disable m /\
      stack (tls (mkState (mkTLS [] (Some "off"%string) false) true)) <> [] /\
      mkState (mkTLS [] (Some "off"%string) false) true
      = mkState (set_disabled_error_message (Some m)
                   (tls (mkState (mkTLS [] (Some "off"%string) false) true)))
                (is_initialized
                   (mkState (mkTLS [] (Some "off"%string) false) true)))).
Proof.
  apply (call_throws_disabled_reason (PushHooks 1%N 2%N)
           (mkState (mkTLS [] (Some "off"%string) false) true)).
  reflexivity.
Defined.

(** X3. The calls that stop on a failed assertion are exactly [push_hooks]
    with the readiness flag unset or with a null handle, and [pop_hooks] with
    the readiness flag unset or on an empty stack. Every other call returns
    or throws, and no call reaches undefined behaviour. *)
Theorem call_aborts_iff (c : api) (s : state) :
  (call c s = Abort <->
   (exists pack_hook unpack_hook,
      c = PushHooks pack_hook unpack_hook /\
      (is_initialized s = false \/ pack_hook = nullptr \/ unpack_hook = nullptr))
   \/ (c = PopHooks /\ (is_initialized s = false \/ stack (tls s) = []))) /\
  call c s <> Undefined.
Proof.
  assert (Hno : forall c', (forall p u, c' <> PushHooks p u) -> c' <> PopHooks ->
            ~ ((exists p u, c' = PushHooks p u /\
                  (is_initialized s = false \/ p = nullptr \/ u = nullptr))
               \/ (c' = PopHooks /\
                   (is_initialized s = false \/ stack (tls s) = [])))).
  { intros c' Hp Hq [(p & u & E & _) | [E _]]; [now apply (Hp p u) | now apply Hq]. }
  destruct c;
    try (split; [split; [open_call; discriminate
                        | intros H; exfalso; revert H; apply Hno; discriminate]
                | open_call; discriminate]).
  - open_call. rewrite disable_cases.
    destruct (vector.empty (stack (tls s)));
      (split; [split; [discriminate
                      | intros H; exfalso; revert H; apply Hno; discriminate]
              | discriminate]).
  - open_call. rewrite push_hooks_cases.
    destruct (is_initialized s) eqn:Hi; cbn [negb orb].
    + destruct (N.eqb_spec pack_hook nullptr) as [Hp|Hp]; cbn [orb].
      * split; [|discriminate]. split; [|reflexivity].
        intros _. left. exists pack_hook, unpack_hook. auto.
      * destruct (N.eqb_spec unpack_hook nullptr) as [Hu|Hu].
        -- split; [|discriminate]. split; [|reflexivity].
           intros _. left. exists pack_hook, unpack_hook. auto.
        -- split; [|destruct (disabled_error_message (tls s)); discriminate].
           split; [destruct (disabled_error_message (tls s)); discriminate|].
           intros [(p & u & [= <- <-] & [H | [H | H]]) | [H _]];
             congruence.
    + split; [|discriminate]. split; [|reflexivity].
      intros _. left. exists pack_hook, unpack_hook. auto.
  - open_call.
    destruct (pop_hooks_cases s) as [[E H] | (v & h & Hi & Hs & E)]; rewrite E.
    + split; [|discriminate]. split; [|reflexivity]. intros _. right. now split.
    + split; [|discriminate]. split; [discriminate|].
      intros [(p & u & [=] & _) | [_ [H | H]]]; [congruence|].
      rewrite Hs in H. now destruct v.
  - open_call. destruct (get_hooks_returns s) as [r ->].
    split; [split; [discriminate
                   | intros H; exfalso; revert H; apply Hno; discriminate]
           | discriminate].
Qed.

Lemma call_aborts_iff_witness :
  call PopHooks (mkState (mkTLS [] None false) true) = Abort /\
  call (PushHooks 0%N 7%N) (mkState (mkTLS [] None false) true) = Abort.
Proof.
  split.
  - apply (proj2 (proj1 (call_aborts_iff PopHooks
                           (mkState (mkTLS [] None false) true)))).
    right. split; [reflexivity | right; reflexivity].
  - apply (proj2 (proj1 (call_aborts_iff (PushHooks 0%N 7%N)
                           (mkState (mkTLS [] None false) true)))).
    left. exists 0%N, 7%N. split; [reflexivity | right; left; reflexivity].
Defined.

(** ** What sequences of calls keep *)

Lemma reach_invariant (P : state -> Prop) (ok : api -> Prop) :
  (forall c s s', ok c -> P s -> after c s = Some s' -> P s') ->
  forall cs s s', Forall ok cs -> P s -> reach cs s = Some s' -> P s'.
Proof.
  intros Hstep. induction cs as [|c cs IH]; intros s s' Hok HP Hr.
  - now injection Hr as <-.
  - inversion Hok as [|? ? Hc Hcs]; subst. cbn in Hr.
    destruct (after c s) as [s1|] eqn:E; [|discriminate].
    exact (IH s1 s' Hcs (Hstep c s s1 Hc HP E) Hr).
Qed.

Lemma after_is_initialized (c : api) (s s' : state) :
  after c s = Some s' ->
  is_initialized s' = is_initialized s || is_lazy_initialize c.
Proof.
  pose proof (after_other c s) as H.
  destruct c; cbn [is_lazy_initialize];
    try (rewrite H; intros [= <-]; cbn;
         now rewrite ?orb_false_r, ?orb_true_r).
  - rewrite after_push_hooks. destruct (is_initialized s) eqn:Hi;
      cbn [negb orb]; [|discriminate].
    destruct ((pack_hook =? nullptr)%N || (unpack_hook =? nullptr)%N);
      [discriminate|].
    destruct (disabled_error_message (tls s)); intros [= <-];
      [exact Hi | reflexivity].
  - destruct (after_pop_hooks s) as [[E _] | (v & h & Hi & _ & E)]; rewrite E;
      [discriminate|].
    intros [= <-]. now rewrite Hi.
Qed.

(** X4. The readiness flag is written by [lazy_initialize] and by nothing
    else, and it is never cleared: after any sequence of calls that the
    caller gets through, the flag is set exactly when it was set before or
    [lazy_initialize] is among the calls. *)
Theorem readiness_flag_only_set (cs : list api) (s s' : state) :
  reach cs s = Some s' ->
  is_initialized s' = is_initialized s || existsb is_lazy_initialize cs.
Proof.
  revert s. induction cs as [|c cs IH]; intros s Hr.
  - injection Hr as <-. cbn. now rewrite orb_false_r.
  - cbn in Hr. destruct (after c s) as [s1|] eqn:E; [|discriminate].
    rewrite (IH s1 Hr), (after_is_initialized c s s1 E).
    cbn [existsb]. now rewrite orb_assoc.
Qed.

Lemma readiness_flag_only_set_witness :
  is_initialized (mkState (mkTLS [] (Some "off"%string) true) false)
  = is_initialized initial_state
    || existsb is_lazy_initialize
         [Disable "off"; SetTracing true; GetHooks].
Proof.
  apply (readiness_flag_only_set
           [Disable "off"; SetTracing true; GetHooks] initial_state).
  reflexivity.
Defined.

Lemma after_real_stack (c : api) (s s' : state) :
  real_snapshot c ->
  Forall real_hooks (stack (tls s)) ->
  after c s = Some s' ->
  Forall real_hooks (stack (tls s')).
Proof.
  intros Hc Hs. pose proof (after_other c s) as H.
  destruct c; try (rewrite H; intros [= <-]; assumption).
  - rewrite after_push_hooks.
    destruct (negb (is_initialized s)); cbn [orb]; [discriminate|].
    destruct (N.eqb_spec pack_hook nullptr) as [Hp|Hp]; cbn [orb];
      [discriminate|].
    destruct (N.eqb_spec unpack_hook nullptr) as [Hu|Hu]; [discriminate|].
    destruct (disabled_error_message (tls s)); intros [= <-]; [assumption|].
    cbn. apply Forall_app. split; [assumption|].
    constructor; [now split | constructor].
  - destruct (after_pop_hooks s) as [[E _] | (v & h & _ & Hv & E)]; rewrite E;
      [discriminate|].
    intros [= <-]. cbn. rewrite Hv in Hs. apply Forall_app in Hs. tauto.
Qed.

Lemma get_hooks_no_hooks_iff (s : state) :
  Forall real_hooks (stack (tls s)) ->
  get_hooks s = Ok no_hooks s <->
  is_initialized s = false \/ stack (tls s) = [] \/ is_tracing (tls s) = true.
Proof.
  intros Hs. split; [|apply get_hooks_none].
  intros Hg.
  destruct (is_initialized s) eqn:Hi; [|now left].
  destruct (is_tracing (tls s)) eqn:Ht; [now (right; right)|].
  destruct (stack (tls s)) as [|x v] eqn:Hv; [now (right; left)|].
  exfalso.
  destruct (@exists_last _ (x :: v)) as (v' & h & E); [discriminate|].
  rewrite (get_hooks_top s v' h) in Hg by (auto; now rewrite Hv).
  injection Hg as ->. rewrite E in Hs. apply Forall_app in Hs.
  destruct Hs as [_ Hh]. inversion Hh as [|? ? [Hp _] _]. now apply Hp.
Qed.

(** X5. No pair with a null handle gets onto the stack through the
    interface: if the pairs on the stack have non-null handles, they still
    have after any sequence of calls the caller gets through, as long as the
    snapshots given to [set_tls_state] have such stacks too. For such a state
    the answer (nullptr, nullptr) of [get_hooks] is never an entry of the
    stack: it is given exactly when the readiness flag is unset, the stack is
    empty or tracing is on. *)
Theorem null_handles_never_stacked (cs : list api) (s s' : state) :
  Forall real_hooks (stack (tls s)) ->
  Forall real_snapshot cs ->
  reach cs s = Some s' ->
  Forall real_hooks (stack (tls s')) /\
  (get_hooks s' = Ok no_hooks s' <->
   is_initialized s' = false \/ stack (tls s') = [] \/
   is_tracing (tls s') = true).
Proof.
  intros Hs Hcs Hr.
  assert (Hs' : Forall real_hooks (stack (tls s'))).
  { revert Hcs Hs Hr.
    apply (reach_invariant (fun s0 => Forall real_hooks (stack (tls s0)))
             real_snapshot).
    intros c s0 s1. apply after_real_stack. }
  split; [exact Hs' | now apply get_hooks_no_hooks_iff].
Qed.

Lemma null_handles_never_stacked_witness :
  Forall real_hooks
    (stack (tls (mkState (mkTLS [(1, 2); (3, 4)]%N None false) true))) /\
  (get_hooks (mkState (mkTLS [(1, 2); (3, 4)]%N None false) true)
   = Ok no_hooks (mkState (mkTLS [(1, 2); (3, 4)]%N None false) true) <->
   is_initialized (mkState (mkTLS [(1, 2); (3, 4)]%N None false) true) = false \/
   stack (tls (mkState (mkTLS [(1, 2); (3, 4)]%N None false) true)) = [] \/
   is_tracing (tls (mkState (mkTLS [(1, 2); (3, 4)]%N None false) true)) = true).
Proof.
  apply (null_handles_never_stacked
           [LazyInitialize; PushHooks 1 2; SetTracing true; PushHooks 3 4;
            SetTracing false]%N
           initial_state).
  - constructor.
  - repeat constructor.
  - reflexivity.
Defined.

Lemma firstn_length_app {A} (v w : list A) : firstn (length v) (v ++ w) = v.
Proof. induction v as [|x v IH]; cbn; [reflexivity | now rewrite IH]. Qed.

Lemma after_while_disabled (c : api) (s s' : state) :
  disabled_error_message (tls s) <> None ->
  keeps_disabled c = true ->
  after c s = Some s' ->
  disabled_error_message (tls s') <> None /\
  exists k, stack (tls s') = firstn k (stack (tls s)).
Proof.
  intros Hd Hc. pose proof (after_other c s) as H.
  assert (Hsame : exists k, stack (tls s) = firstn k (stack (tls s)))
    by (exists (length (stack (tls s))); now rewrite firstn_all).
  destruct c; try discriminate Hc;
    try (rewrite H; intros [= <-]; split; [first [exact Hd | discriminate]
                                         | exact Hsame]).
  - rewrite after_push_hooks.
    destruct (negb (is_initialized s) || (pack_hook =? nullptr)%N
              || (unpack_hook =? nullptr)%N); [discriminate|].
    destruct (disabled_error_message (tls s)) eqn:E; [|now contradiction Hd].
    intros [= <-]. split; [now rewrite E | exact Hsame].
  - destruct (after_pop_hooks s) as [[E _] | (v & h & _ & Hv & E)]; rewrite E;
      [discriminate|].
    intros [= <-]. split; [exact Hd|]. exists (length v).
    cbn. now rewrite Hv, firstn_length_app.
Qed.

(** X6. While the hooks are disabled the stack does not grow. From a
    disabled state, after any sequence of calls without [enable] and
    [set_tls_state] that the caller gets through, the state is still
    disabled and the stack is an initial part of the stack before: pairs can
    be popped, none is added. *)
Theorem disabled_stack_never_grows (cs : list api) (s s' : state) :
  disabled_error_message (tls s) <> None ->
  forallb keeps_disabled cs = true ->
  reach cs s = Some s' ->
  disabled_error_message (tls s') <> None /\
  exists k, stack (tls s') = firstn k (stack (tls s)).
Proof.
  revert s. induction cs as [|c cs IH]; intros s Hd Hcs Hr.
  - injection Hr as <-. split; [exact Hd|].
    exists (length (stack (tls s))). now rewrite firstn_all.
  - cbn in Hcs. apply andb_prop in Hcs. destruct Hcs as [Hc Hcs].
    cbn in Hr. destruct (after c s) as [s1|] eqn:E; [|discriminate].
    destruct (after_while_disabled c s s1 Hd Hc E) as [Hd1 [k1 Hk1]].
    destruct (IH s1 Hd1 Hcs Hr) as [Hd' [k Hk]].
    split; [exact Hd'|]. exists (Nat.min k k1).
    now rewrite Hk, Hk1, firstn_firstn.
Qed.

Lemma disabled_stack_never_grows_witness :
  disabled_error_message
    (tls (mkState (mkTLS [(1, 2)%N] (Some "again"%string) false) true))
  <> None /\
  exists k,
    stack (tls (mkState (mkTLS [(1, 2)%N] (Some "again"%string) false) true))
    = firstn k
        (stack (tls (mkState (mkTLS [(1, 2); (3, 4)]%N
                                    (Some "off"%string) false) true))).
Proof.
  apply (disabled_stack_never_grows
           [PushHooks 5 6; PopHooks; Disable "again"; PushHooks 7 8]%N
           (mkState (mkTLS [(1, 2); (3, 4)]%N (Some "off"%string) false) true)).
  - discriminate.
  - reflexivity.
  - reflexivity.
Defined.

(** ** Nested scopes *)

Lemma push_all_ok (hs : list hook_pair) :
  forall (st : list hook_pair) (tr : bool),
    Forall real_hooks hs ->
    push_all hs (mkState (mkTLS st None tr) true)
    = Ok tt (mkState (mkTLS (st ++ hs) None tr) true).
Proof.
  induction hs as [|h hs IH]; intros st tr Hv.
  - cbn. now rewrite app_nil_r.
  - inversion Hv as [|? ? [Hp Hu] Hv']; subst.
    cbn [push_all]. cbv [bind ret Monad_M].
    rewrite push_hooks_ok by (cbn; auto). cbn [tls stack is_tracing].
    rewrite IH by assumption. destruct h. cbn. now rewrite <- app_assoc.
Qed.

Lemma pop_n_ok (hs : list hook_pair) :
  forall (st : list hook_pair) (d : option string) (tr : bool),
    pop_n (length hs) (mkState (mkTLS (st ++ hs) d tr) true)
    = Ok (rev hs) (mkState (mkTLS st d tr) true).
Proof.
  induction hs as [|h hs IH] using rev_ind; intros st d tr.
  - cbn. now rewrite app_nil_r.
  - rewrite last_length, rev_unit. cbn [pop_n]. cbv [bind ret Monad_M].
    rewrite (pop_hooks_back _ (st ++ hs) h);
      [|reflexivity | cbn; apply app_assoc].
    cbn [tls disabled_error_message is_tracing]. now rewrite IH.
Qed.

(** X7. Scopes are left in the reverse of the order they were entered in.
    On an enabled state with the readiness flag set, pushing the pairs [hs]
    (of non-null handles) and then popping as many times returns the pairs
    last-pushed first, and ends in the state before the first push. *)
Theorem scopes_leave_in_reverse_order (s : state) (hs : list hook_pair) :
  is_initialized s = true ->
  disabled_error_message (tls s) = None ->
  Forall real_hooks hs ->
  (push_all hs ;; pop_n (length hs)) s = Ok (rev hs) s.
Proof.
  intros Hi Hd Hv. destruct s as [[st d tr] init]; cbn in Hi, Hd; subst.
  cbv [bind Monad_M]. rewrite push_all_ok by assumption. apply pop_n_ok.
Qed.

Lemma scopes_leave_in_reverse_order_witness :
  (push_all [(1, 2); (3, 4); (5, 6)]%N ;; pop_n 3)
    (mkState (mkTLS [(7, 8)%N] None true) true)
  = Ok [(5, 6); (3, 4); (1, 2)]%N (mkState (mkTLS [(7, 8)%N] None true) true).
Proof.
  apply (scopes_leave_in_reverse_order
           (mkState (mkTLS [(7, 8)%N] None true) true)
           [(1, 2); (3, 4); (5, 6)]%N).
  - reflexivity.
  - reflexivity.
  - repeat constructor; discriminate.
Defined.

(** X8. While disabled, a scope that is left cannot be entered again. With
    the readiness flag set and a pair of non-null handles at the back of the
    stack, [pop_hooks] followed by [push_hooks] of the pair it returned gives
    back the state before on an enabled state; on a disabled state the pop
    succeeds, the push throws the disabled reason, and the pair is gone from
    the stack. *)
Theorem pop_then_push_back
    (s : state) (v : list hook_pair) (pack_hook unpack_hook : PyObject_ptr) :
  is_initialized s = true ->
  stack (tls s) = v ++ [(pack_hook, unpack_hook)] ->
  pack_hook <> nullptr ->
  unpack_hook <> nullptr ->
  (disabled_error_message (tls s) = None ->
   (h <- pop_hooks ;; push_hooks (fst h) (snd h)) s = Ok tt s) /\
  (forall m,
     disabled_error_message (tls s) = Some m ->
     (h <- pop_hooks ;; push_hooks (fst h) (snd h)) s
     = Throw (c10_Error m)
             (mkState (mkTLS v (Some m) (is_tracing (tls s))) true)).
Proof.
  intros Hi Hs Hp Hu.
  destruct s as [[st d tr] init]; cbn in Hi, Hs; subst.
  apply N.eqb_neq in Hp, Hu. split.
  - cbn [tls disabled_error_message]. intros ->.
    cbv [bind Monad_M].
    rewrite (pop_hooks_back _ v (pack_hook, unpack_hook)) by reflexivity.
    rewrite push_hooks_cases. cbn. now rewrite Hp, Hu.
  - cbn [tls disabled_error_message is_tracing]. intros m ->.
    cbv [bind Monad_M].
    rewrite (pop_hooks_back _ v (pack_hook, unpack_hook)) by reflexivity.
    rewrite push_hooks_cases. cbn. now rewrite Hp, Hu.
Qed.

Lemma pop_then_push_back_witness :
  (h <- pop_hooks ;; push_hooks (fst h) (snd h))
    (mkState (mkTLS [(1, 2); (3, 4)]%N None false) true)
  = Ok tt (mkState (mkTLS [(1, 2); (3, 4)]%N None false) true) /\
  (h <- pop_hooks ;; push_hooks (fst h) (snd h))
    (mkState (mkTLS [(1, 2); (3, 4)]%N (Some "off"%string) false) true)
  = Throw (c10_Error "off")
          (mkState (mkTLS [(1, 2)%N] (Some "off"%string) false) true).
Proof.
  split.
  - apply (proj1 (pop_then_push_back
                    (mkState (mkTLS [(1, 2); (3, 4)]%N None false) true)
                    [(1, 2)%N] 3%N 4%N eq_refl eq_refl
                    ltac:(discriminate) ltac:(discriminate))).
    reflexivity.
  - apply (proj2 (pop_then_push_back
                    (mkState (mkTLS [(1, 2); (3, 4)]%N (Some "off"%string)
                                    false) true)
                    [(1, 2)%N] 3%N 4%N eq_refl eq_refl
                    ltac:(discriminate) ltac:(discriminate)) "off"%string).
    reflexivity.
Defined.

(** ** Tracing over a whole sequence *)

(** X9. Tracing hides every scope and disturbs none. On an enabled state
    with the readiness flag set and tracing on, a sequence of pushes (of
    non-null handles) and matched pops runs to its end and changes the stack
    as it would without tracing, yet [get_hooks] answers (nullptr, nullptr)
    after it; once [set_tracing false] is called, [get_hooks] answers the
    most recently pushed pair that is still open. *)
Theorem tracing_hides_every_scope
    (s : state) (ops : list scope_op) (pending : list hook_pair) :
  is_initialized s = true ->
  disabled_error_message (tls s) = None ->
  is_tracing (tls s) = true ->
  Forall valid_op ops ->
  open_scopes ops [] = Some pending ->
  exists s',
    run ops s = Ok tt s' /\
    stack (tls s') = stack (tls s) ++ rev pending /\
    get_hooks s' = Ok no_hooks s' /\
    (forall h rest,
       pending = h :: rest ->
       (_ <- set_tracing false ;; get_hooks) s'
       = Ok h (mkState (set_is_tracing false (tls s')) true)).
Proof.
  intros Hi Hd Ht Hv Ho.
  destruct s as [[st d tr] init]; cbn in Hi, Hd, Ht; subst.
  exists (mkState (mkTLS (st ++ rev pending) None true) true).
  split; [|split; [reflexivity|split]].
  - rewrite <- (run_open_scopes ops [] pending st true Hv Ho).
    cbn [rev app]. now rewrite app_nil_r.
  - apply get_hooks_none. right; right. reflexivity.
  - intros h rest ->. cbv [bind Monad_M set_tracing read write_tls ret].
    cbn [tls is_initialized is_tracing set_is_tracing stack
         disabled_error_message].
    apply (get_hooks_top _ (st ++ rev rest)); cbn; auto. apply app_assoc.
Qed.

Lemma tracing_hides_every_scope_witness :
  exists s',
    run [Push 1 2; Push 3 4; Pop; Push 5 6]%N
        (mkState (mkTLS [] None true) true) = Ok tt s' /\
    stack (tls s') = [] ++ rev [(5, 6); (1, 2)]%N /\
    get_hooks s' = Ok no_hooks s' /\
    (forall h rest,
       [(5, 6); (1, 2)]%N = h :: rest ->
       (_ <- set_tracing false ;; get_hooks) s'
       = Ok h (mkState (set_is_tracing false (tls s')) true)).
Proof.
  apply (tracing_hides_every_scope
           (mkState (mkTLS [] None true) true)
           [Push 1 2; Push 3 4; Pop; Push 5 6]%N [(5, 6); (1, 2)]%N).
  - reflexivity.
  - reflexivity.
  - reflexivity.
  - repeat constructor; discriminate.
  - reflexivity.
Defined.

(** ** Carrying the thread state to another thread *)

(** X10. [set_tls_state] replaces the whole thread state and nothing of the
    old one survives: [get_tls_state] then returns the snapshot given, and of
    two [set_tls_state] in a row only the second counts. So a snapshot taken
    with [get_tls_state] on one thread and given to [set_tls_state] on
    another thread of the same process (the same readiness flag) makes
    whatever runs next on that thread behave as it would on the first. *)
Theorem set_tls_state_transports
    (sA sB : state) (t1 t2 : SavedTensorDefaultHooksTLS) :
  (set_tls_state t1 ;; get_tls_state) sB
  = Ok t1 (mkState t1 (is_initialized sB)) /\
  (set_tls_state t1 ;; set_tls_state t2) sB = set_tls_state t2 sB /\
  exists snapshot,
    get_tls_state sA = Ok snapshot sA /\
    (is_initialized sA = is_initialized sB ->
     forall (A : Type) (next : M A),
       (set_tls_state snapshot ;; next) sB = next sA).
Proof.
  split; [reflexivity|]. split; [reflexivity|].
  exists (tls sA). split; [reflexivity|].
  intros Hi A next. destruct sA as [tA iA], sB as [tB iB]; cbn in Hi; subst.
  reflexivity.
Qed.

Lemma set_tls_state_transports_witness :
  exists snapshot,
    get_tls_state (mkState (mkTLS [(1, 2)%N] None false) true)
    = Ok snapshot (mkState (mkTLS [(1, 2)%N] None false) true) /\
    (set_tls_state snapshot ;; get_hooks)
      (mkState (mkTLS [] (Some "off"%string) true) true)
    = get_hooks (mkState (mkTLS [(1, 2)%N] None false) true).
Proof.
  destruct (set_tls_state_transports
              (mkState (mkTLS [(1, 2)%N] None false) true)
              (mkState (mkTLS [] (Some "off"%string) true) true)
              (mkTLS [] None false) (mkTLS [] None false))
    as (_ & _ & snapshot & Hget & Hnext).
  exists snapshot. split; [exact Hget|].
  apply Hnext. reflexivity.
Defined.

(** X11. [set_tls_state] does not touch the readiness flag. A snapshot with
    open scopes that is restored in a process whose flag is unset stays
    hidden: [get_hooks] answers (nullptr, nullptr) and [pop_hooks] stops on
    its assertion, until [lazy_initialize] is called; then [get_hooks]
    answers the pair at the back of the restored stack. *)
Theorem unready_process_hides_restored_stack
    (s : state) (t : SavedTensorDefaultHooksTLS)
    (v : list hook_pair) (h : hook_pair) :
  is_initialized s = false ->
  stack t = v ++ [h] ->
  is_tracing t = false ->
  (set_tls_state t ;; get_hooks) s = Ok no_hooks (mkState t false) /\
  (set_tls_state t ;; pop_hooks) s = Abort /\
  (set_tls_state t ;; lazy_initialize ;; get_hooks) s = Ok h (mkState t true).
Proof.
  intros Hi Hs Ht. destruct s as [t0 init]; cbn in Hi; subst.
  cbv [bind Monad_M set_tls_state lazy_initialize write_tls
       write_is_initialized].
  cbn [tls is_initialized]. split; [|split].
  - apply get_hooks_none. now left.
  - destruct (pop_hooks_cases (mkState t false)) as [[E _] | (? & ? & Hf & _)];
      [exact E | discriminate Hf].
  - apply (get_hooks_top _ v h); auto.
Qed.

Lemma unready_process_hides_restored_stack_witness :
  (set_tls_state (mkTLS [(1, 2); (3, 4)]%N None false) ;; get_hooks)
    initial_state
  = Ok no_hooks (mkState (mkTLS [(1, 2); (3, 4)]%N None false) false) /\
  (set_tls_state (mkTLS [(1, 2); (3, 4)]%N None false) ;; pop_hooks)
    initial_state = Abort /\
  (set_tls_state (mkTLS [(1, 2); (3, 4)]%N None false) ;; lazy_initialize ;;
   get_hooks) initial_state
  = Ok (3, 4)%N (mkState (mkTLS [(1, 2); (3, 4)]%N None false) true).
Proof.
  apply (unready_process_hides_restored_stack
           initial_state (mkTLS [(1, 2); (3, 4)]%N None false)
           [(1, 2)%N] (3, 4)%N); reflexivity.
Defined.
